(** * lite-idp: the command bootstrap of [cmd/root.go]

    A shallow embedding of [cmd/root.go]: flag declaration ([init]),
    configuration resolution ([initConfig]), the transport-security
    middleware ([hstsHandler], [hsts]), the server run function
    ([RootCmd.RunE]) and the process boundary ([Execute]).

    [root.go] is glue over third-party packages (pflag, cobra, viper,
    net/http, gorilla/handlers).  The fragment of each package that
    [root.go] calls is modelled in a module named after the package, from
    the package's documented behaviour; the functions of [root.go] itself
    are translated statement by statement in [Module cmd]. *)

From Stdlib Require Import String Ascii List Bool Arith Lia.
From stdpp Require Import base option gmap strings list.

Local Open Scope string_scope.
Local Open Scope list_scope.

(** ** Package [strings] (ASCII fragment) *)

Module strings.

(** Go strings are byte sequences; [isASCII] is the test the fast path of
    [strings.ToUpper] and [strings.ToLower] makes ([c < utf8.RuneSelf]). *)
Definition isASCIIByte (c : ascii) : bool := Nat.ltb (nat_of_ascii c) 128.

Fixpoint isASCII (s : string) : bool :=
  match s with
  | EmptyString => true
  | String c s' => isASCIIByte c && isASCII s'
  end.

Definition toUpperByte (c : ascii) : ascii :=
  let n := nat_of_ascii c in
  if Nat.leb 97 n && Nat.leb n 122 then ascii_of_nat (n - 32) else c.

Definition toLowerByte (c : ascii) : ascii :=
  let n := nat_of_ascii c in
  if Nat.leb 65 n && Nat.leb n 90 then ascii_of_nat (n + 32) else c.

Fixpoint mapBytes (f : ascii -> ascii) (s : string) : string :=
  match s with
  | EmptyString => EmptyString
  | String c s' => String (f c) (mapBytes f s')
  end.

(** [strings.ToUpper] and [strings.ToLower] on ASCII-only input: every
    byte in ['a','z'] (resp. ['A','Z']) is shifted by ['a' - 'A']. *)
Definition ToUpper (s : string) : string := mapBytes toUpperByte s.
Definition ToLower (s : string) : string := mapBytes toLowerByte s.

(** [strings.NewReplacer(old, new)] for one pair with a non-empty [old]. *)
Record Replacer := NewReplacer { old : string; new : string }.

(** Left-to-right, non-overlapping replacement.  [skip] counts the bytes
    of a match that are still to be dropped. *)
Fixpoint replaceFrom (r : Replacer) (skip : nat) (s : string) : string :=
  match s with
  | EmptyString => EmptyString
  | String c s' =>
      match skip with
      | S k => replaceFrom r k s'
      | O =>
          if String.prefix (old r) s
          then new r +:+ replaceFrom r (String.length (old r) - 1) s'
          else String c (replaceFrom r 0 s')
      end
  end.

Definition Replace (r : Replacer) (s : string) : string := replaceFrom r 0 s.

End strings.

(** ** Package [os]: the process environment and the file system *)

Module os.

(** A configuration file as the reader meets it. *)
Inductive File :=
| Unreadable                                (* open or read fails *)
| Unparsable (why : string)                 (* content is not valid for its format *)
| Parsed (settings : gmap string string).   (* top-level keys, lower-cased by the reader *)

Record Process := {
  environ : gmap string string;   (* environment variables *)
  files : gmap string File        (* path -> file; an absent path does not exist *)
}.

Definition LookupEnv (p : Process) (key : string) : option string :=
  environ p !! key.

End os.

(** ** Errors *)

(** Non-nil [error] values.  [ErrServerClosed] is the sentinel
    [http.ErrServerClosed]; Go compares it by identity, so another error
    with the same message is a different value. *)
Inductive error :=
| ErrServerClosed
| ConfigFileNotFoundError (name : string) (locations : list string)
| UnsupportedConfigError (ext : string)
| PathError (op path err : string)
| ConfigParseError (err : string)
| errorString (msg : string).

(** The double-quote character, as a string. *)
Definition quote : string := String (ascii_of_nat 34) EmptyString.

Definition Error (e : error) : string :=
  match e with
  | ErrServerClosed => "http: Server closed"
  | ConfigFileNotFoundError name locations =>
      "Config File " +:+ quote +:+ name +:+ quote +:+ " Not Found in " +:+
      quote +:+ "[" +:+ String.concat " " locations +:+ "]" +:+ quote
  | UnsupportedConfigError ext => "Unsupported Config Type " +:+ quote +:+ ext +:+ quote
  | PathError op path err => op +:+ " " +:+ path +:+ ": " +:+ err
  | ConfigParseError err => "While parsing config: " +:+ err
  | errorString msg => msg
  end.

(** ** Package [path/filepath] *)

Module filepath.

(** [scanExt s] is [(s contains a separator, Ext s)]. *)
Fixpoint scanExt (s : string) : bool * string :=
  match s with
  | EmptyString => (false, EmptyString)
  | String c s' =>
      let '(sep, ext) := scanExt s' in
      (Ascii.eqb c "/" || sep,
       match ext with
       | String _ _ => ext
       | EmptyString => if negb sep && Ascii.eqb c "." then s else EmptyString
       end)
  end.

(** [Ext]: the suffix beginning at the final dot in the final element of
    the path; empty if there is no dot. *)
Definition Ext (path : string) : string := snd (scanExt path).

(** [Join] of a clean directory and a file name. *)
Definition Join (dir name : string) : string := dir +:+ "/" +:+ name.

End filepath.

(** ** Package [pflag]: command-line flags *)

Module pflag.

Record Flag := {
  Name : string;
  Shorthand : string;
  Usage : string;
  Value : string;      (* current value, as [Value.String()] prints it *)
  DefValue : string;   (* declared default *)
  Changed : bool       (* the caller set the flag on the command line *)
}.

(** A [FlagSet] keeps its flags in declaration order. *)
Definition FlagSet := list Flag.

Definition Lookup (fs : FlagSet) (name : string) : option Flag :=
  List.find (fun f => String.eqb (Name f) name) fs.

(** [StringP(name, shorthand, value, usage)]: declare a string flag whose
    value starts at its default. *)
Definition StringP (fs : FlagSet) (name shorthand value usage : string) : FlagSet :=
  fs ++ [ {| Name := name; Shorthand := shorthand; Usage := usage;
             Value := value; DefValue := value; Changed := false |} ].

Definition String_ (fs : FlagSet) (name value usage : string) : FlagSet :=
  StringP fs name "" value usage.

(** [StringVar(&p, name, value, usage)]: the same declaration; the
    variable [p] follows the flag's value (see [cmd.cfgFile]). *)
Definition StringVar (fs : FlagSet) (name value usage : string) : FlagSet :=
  StringP fs name "" value usage.

(** [FlagSet.Set(name, value)]: what parsing [--name=value] does. *)
Fixpoint Set_ (fs : FlagSet) (name value : string) : option FlagSet :=
  match fs with
  | [] => None
  | f :: fs' =>
      if String.eqb (Name f) name
      then Some ({| Name := Name f; Shorthand := Shorthand f; Usage := Usage f;
                    Value := value; DefValue := DefValue f; Changed := true |} :: fs')
      else option_map (cons f) (Set_ fs' name value)
  end.

(** [FlagSet.Parse] over arguments already split into name and value.
    An undeclared name is a parse error. *)
Fixpoint Parse (fs : FlagSet) (args : list (string * string)) : FlagSet + error :=
  match args with
  | [] => inl fs
  | (name, value) :: args' =>
      match Set_ fs name value with
      | Some fs' => Parse fs' args'
      | None => inr (errorString ("unknown flag: --" +:+ name))
      end
  end.

(** [AddFlagSet]: add the flags of [other] whose name is not declared yet. *)
Definition AddFlagSet (fs other : FlagSet) : FlagSet :=
  fold_left (fun acc f => match Lookup acc (Name f) with
                          | Some _ => acc
                          | None => acc ++ [f]
                          end) other fs.

End pflag.

(** ** Package [viper]: the configuration registry *)

Module viper.

Record Viper := {
  configFile : string;
  configName : string;
  configPaths : list string;
  automaticEnvApplied : bool;
  envKeyReplacer : option strings.Replacer;
  config : gmap string string;         (* what ReadInConfig loaded *)
  defaults : gmap string string;       (* SetDefault; root.go never calls it *)
  pflags : gmap string pflag.Flag      (* BindPFlag *)
}.

Definition New : Viper := {|
  configFile := ""; configName := "config"; configPaths := [];
  automaticEnvApplied := false; envKeyReplacer := None;
  config := ∅; defaults := ∅; pflags := ∅ |}.

Definition SetConfigFile (v : Viper) (file : string) : Viper :=
  if String.eqb file "" then v else
  {| configFile := file; configName := configName v; configPaths := configPaths v;
     automaticEnvApplied := automaticEnvApplied v; envKeyReplacer := envKeyReplacer v;
     config := config v; defaults := defaults v; pflags := pflags v |}.

Definition AddConfigPath (v : Viper) (path : string) : Viper :=
  if String.eqb path "" then v else
  if existsb (String.eqb path) (configPaths v) then v else
  {| configFile := configFile v; configName := configName v;
     configPaths := configPaths v ++ [path];
     automaticEnvApplied := automaticEnvApplied v; envKeyReplacer := envKeyReplacer v;
     config := config v; defaults := defaults v; pflags := pflags v |}.

(** [SetConfigName] also forgets the cached file, so the search runs. *)
Definition SetConfigName (v : Viper) (name : string) : Viper :=
  if String.eqb name "" then v else
  {| configFile := ""; configName := name; configPaths := configPaths v;
     automaticEnvApplied := automaticEnvApplied v; envKeyReplacer := envKeyReplacer v;
     config := config v; defaults := defaults v; pflags := pflags v |}.

Definition AutomaticEnv (v : Viper) : Viper :=
  {| configFile := configFile v; configName := configName v; configPaths := configPaths v;
     automaticEnvApplied := true; envKeyReplacer := envKeyReplacer v;
     config := config v; defaults := defaults v; pflags := pflags v |}.

Definition SetEnvKeyReplacer (v : Viper) (r : strings.Replacer) : Viper :=
  {| configFile := configFile v; configName := configName v; configPaths := configPaths v;
     automaticEnvApplied := automaticEnvApplied v; envKeyReplacer := Some r;
     config := config v; defaults := defaults v; pflags := pflags v |}.

Definition BindPFlag (v : Viper) (key : string) (flag : pflag.Flag) : Viper :=
  {| configFile := configFile v; configName := configName v; configPaths := configPaths v;
     automaticEnvApplied := automaticEnvApplied v; envKeyReplacer := envKeyReplacer v;
     config := config v; defaults := defaults v;
     pflags := <[strings.ToLower key := flag]> (pflags v) |}.

(** [BindPFlags] visits every flag of the set and binds it under its name. *)
Definition BindPFlags (v : Viper) (flags : pflag.FlagSet) : Viper :=
  fold_left (fun acc f => BindPFlag acc (pflag.Name f) f) flags v.

(** No environment prefix is configured: the key is upper-cased. *)
Definition mergeWithEnvPrefix (v : Viper) (key : string) : string :=
  strings.ToUpper key.

(** The name of the environment variable consulted for [key]. *)
Definition envName (v : Viper) (key : string) : string :=
  let name := mergeWithEnvPrefix v key in
  match envKeyReplacer v with
  | Some r => strings.Replace r name
  | None => name
  end.

(** [getEnv]: an unset variable and a variable set to the empty string
    both count as not found (empty values are not allowed by default). *)
Definition getEnv (v : Viper) (p : os.Process) (key : string) : option string :=
  match os.LookupEnv p (envName v key) with
  | Some val => if String.eqb val "" then None else Some val
  | None => None
  end.

(** [find]: the sources in the order viper consults them.  The override
    map, registered env bindings and the key/value store come in between
    in the library; [root.go] never fills them. *)
Definition find (v : Viper) (p : os.Process) (lcaseKey : string) : option string :=
  match (match pflags v !! lcaseKey with
         | Some flag => if pflag.Changed flag then Some (pflag.Value flag) else None
         | None => None
         end) with
  | Some val => Some val
  | None =>
  match (if automaticEnvApplied v then getEnv v p lcaseKey else None) with
  | Some val => Some val
  | None =>
  match config v !! lcaseKey with
  | Some val => Some val
  | None =>
  match defaults v !! lcaseKey with
  | Some val => Some val
  | None =>
  (* last chance: the value of a bound flag even if it was not set *)
  match pflags v !! lcaseKey with
  | Some flag => Some (pflag.Value flag)
  | None => None
  end end end end end.

(** [GetString(key)]: keys are case-insensitive; a missing value reads
    as the empty string. *)
Definition GetString (v : Viper) (p : os.Process) (key : string) : string :=
  default "" (find v p (strings.ToLower key)).

Definition SupportedExts : list string :=
  ["json"; "toml"; "yaml"; "yml"; "properties"; "props"; "prop"; "hcl"].

Definition exists_ (p : os.Process) (path : string) : bool :=
  bool_decide (is_Some (os.files p !! path)).

Definition searchInPath (v : Viper) (p : os.Process) (dir : string) : string :=
  match List.find (fun ext => exists_ p (filepath.Join dir (configName v +:+ "." +:+ ext)))
                  SupportedExts with
  | Some ext => filepath.Join dir (configName v +:+ "." +:+ ext)
  | None => ""
  end.

Definition findConfigFile (v : Viper) (p : os.Process) : string + error :=
  match List.find (fun f => negb (String.eqb f ""))
                  (List.map (searchInPath v p) (configPaths v)) with
  | Some file => inl file
  | None => inr (ConfigFileNotFoundError (configName v) (configPaths v))
  end.

(** [getConfigFile]: the explicit file if one is set, else the search;
    a file found by the search is remembered in [configFile]. *)
Definition getConfigFile (v : Viper) (p : os.Process) : Viper * (string + error) :=
  if negb (String.eqb (configFile v) "") then (v, inl (configFile v))
  else match findConfigFile v p with
       | inl cf =>
           ({| configFile := cf; configName := configName v; configPaths := configPaths v;
               automaticEnvApplied := automaticEnvApplied v;
               envKeyReplacer := envKeyReplacer v;
               config := config v; defaults := defaults v; pflags := pflags v |}, inl cf)
       | inr e => (v, inr e)
       end.

Definition getConfigType (filename : string) : string :=
  match filepath.Ext filename with
  | String _ (String c rest) => String c rest
  | _ => ""
  end.

Definition setConfig (v : Viper) (m : gmap string string) : Viper :=
  {| configFile := configFile v; configName := configName v; configPaths := configPaths v;
     automaticEnvApplied := automaticEnvApplied v; envKeyReplacer := envKeyReplacer v;
     config := m; defaults := defaults v; pflags := pflags v |}.

(** [ReadInConfig]: locate the file, check its type, read it, parse it.
    Every failure is returned as an error value; [None] is Go's [nil]. *)
Definition ReadInConfig (v : Viper) (p : os.Process) : Viper * option error :=
  match getConfigFile v p with
  | (v1, inr e) => (v1, Some e)
  | (v1, inl filename) =>
      if negb (existsb (String.eqb (getConfigType filename)) SupportedExts)
      then (v1, Some (UnsupportedConfigError (getConfigType filename)))
      else match os.files p !! filename with
           | None => (v1, Some (PathError "open" filename "no such file or directory"))
           | Some os.Unreadable => (v1, Some (PathError "open" filename "permission denied"))
           | Some (os.Unparsable why) => (setConfig v1 ∅, Some (ConfigParseError why))
           | Some (os.Parsed m) => (setConfig v1 m, None)
           end
  end.

Definition ConfigFileUsed (v : Viper) : string := configFile v.

End viper.

(** ** Standard output *)

(** What the process writes to [os.Stdout]: lines printed with
    [fmt.Println] and access-log records. *)
Inductive Output :=
| Println (line : string)
| CombinedLog (method uri : string) (status size : nat).

(** ** Package [net/http] *)

Module http.

(** [http.Header]: header name to its values, in the order added.  Names
    are kept in canonical form; the names used below are canonical. *)
Definition Values (h : gmap string (list string)) (key : string) : list string :=
  default [] (h !! key).

Definition Add (h : gmap string (list string)) (key value : string)
  : gmap string (list string) :=
  <[key := Values h key ++ [value]]> h.

Definition Set_ (h : gmap string (list string)) (key value : string)
  : gmap string (list string) :=
  <[key := [value]]> h.

Definition Del (h : gmap string (list string)) (key : string)
  : gmap string (list string) :=
  delete key h.

Record Request := { Method : string; RequestURI : string }.

(** The server's [ResponseWriter]: the header map handed out by
    [Header()], and what has gone to the client. *)
Record ResponseWriter := {
  handlerHeader : gmap string (list string);
  wroteHeader : bool;
  status : nat;
  sentHeader : gmap string (list string);   (* snapshot taken by WriteHeader *)
  written : string                          (* body bytes *)
}.


(** [w.Header().Add/Set/Del]: the map is mutable until it is sent, and
    changes after that do not reach the client. *)
Definition mapHeader (f : gmap string (list string) -> gmap string (list string))
           (w : ResponseWriter) : ResponseWriter :=
  {| handlerHeader := f (handlerHeader w); wroteHeader := wroteHeader w;
     status := status w; sentHeader := sentHeader w; written := written w |}.

Definition WriteHeader (w : ResponseWriter) (code : nat) : ResponseWriter :=
  if wroteHeader w then w
  else {| handlerHeader := handlerHeader w; wroteHeader := true; status := code;
          sentHeader := handlerHeader w; written := written w |}.

Definition Write (w : ResponseWriter) (data : string) : ResponseWriter :=
  let w' := if wroteHeader w then w else WriteHeader w 200 in
  {| handlerHeader := handlerHeader w'; wroteHeader := wroteHeader w';
     status := status w'; sentHeader := sentHeader w';
     written := written w' +:+ data |}.


(** The [Handler] interface: a value with a [ServeHTTP] method.  Serving
    changes the response writer and may print to standard output. *)
Record Handler := {
  ServeHTTP : ResponseWriter -> Request -> ResponseWriter * list Output
}.

Record Server (TLS : Type) := {
  TLSConfig : TLS;
  Handler_ : Handler;
  Addr : string
}.
Arguments TLSConfig {TLS} _.
Arguments Handler_ {TLS} _.
Arguments Addr {TLS} _.


(** What a handler can do to the response writer it is given. *)
Inductive Action :=
| HeaderAdd (key value : string)
| HeaderSet (key value : string)
| HeaderDel (key : string)
| DoWriteHeader (code : nat)
| DoWrite (data : string).

Definition perform (w : ResponseWriter) (a : Action) : ResponseWriter :=
  match a with
  | HeaderAdd k v => mapHeader (fun h => Add h k v) w
  | HeaderSet k v => mapHeader (fun h => Set_ h k v) w
  | HeaderDel k => mapHeader (fun h => Del h k) w
  | DoWriteHeader code => WriteHeader w code
  | DoWrite data => Write w data
  end.

(** [HandlerFunc] for a handler given by the calls it makes per request. *)
Definition HandlerFunc (calls : Request -> list Action) : Handler :=
  {| ServeHTTP := fun w r => (fold_left perform (calls r) w, []) |}.

End http.

(** ** Package [gorilla/handlers] *)

Module handlers.

(** [CombinedLoggingHandler(out, h)]: serve with [h], then write one
    access-log record for the request to [out] (here standard output). *)
Definition CombinedLoggingHandler (h : http.Handler) : http.Handler :=
  {| http.ServeHTTP := fun w r =>
       let '(w', out) := http.ServeHTTP h w r in
       (w', out ++ [CombinedLog (http.Method r) (http.RequestURI r)
                                (if http.wroteHeader w' then http.status w' else 200)
                                (String.length (http.written w'))]) |}.

End handlers.

(** ** Package [crypto/tls] and package [idp] *)

Module tls.
(** The trust configuration is passed through untouched; only its
    identity matters here. *)
Definition Config := string.
End tls.

Module idp.
(** The application service, taken as a parameter: what [Handler()]
    returns (a handler, or the construction error) and the TLS
    configuration it leaves in the [TLSConfig] field. *)
Record IDP := {
  Handler : http.Handler + error;
  TLSConfig : tls.Config
}.
End idp.

(** ** Package [cmd]: [root.go] *)

Module cmd.

(** The package-level variables: [cfgFile], the two flag sets of
    [RootCmd], the viper singleton, and standard output. *)
Record Globals := {
  cfgFile : string;
  persistentFlags : pflag.FlagSet;
  flags : pflag.FlagSet;
  settings : viper.Viper;
  stdout : list Output
}.

(** [func init()] *)
Definition init : Globals :=
  let pf := pflag.StringVar [] "config" "/etc/lite-idp/lite-idp.yaml" "config file" in
  let f0 : pflag.FlagSet := [] in
  let f1 := pflag.StringP f0 "tls-certificate" "c" "/etc/lite-idp/cert.pem"
              "PEM encoded certificate file" in
  let f2 := pflag.StringP f1 "tls-private-key" "k" "/etc/lite-idp/key.pem"
              "PEM encoded private key file" in
  let f3 := pflag.String_ f2 "tls-ca" ""
              ("PEM encoded file containing trusted certificate authorities (default "
               +:+ quote +:+ "OS trusted authorities" +:+ quote +:+ ")") in
  let f4 := pflag.String_ f3 "listen-address" "127.0.0.1:9443"
              "host:port to listen for connections" in
  let f5 := pflag.String_ f4 "server-name" "idp.example.com:9443"
              "FQDN used and optional port used to construct URLs" in
  let f6 := pflag.String_ f5 "entity-id" ""
              ("SAML entityID (default " +:+ quote +:+ "https://$SERVER_NAME/" +:+ quote
               +:+ ")") in
  let f7 := pflag.String_ f6 "metadata-path" "/metadata"
              "server path for serving metadata" in
  let f8 := pflag.String_ f7 "sso-service-path" "/SAML2/Redirect/SSO"
              "server path for redirect-based SSO service" in
  let f9 := pflag.String_ f8 "artifact-service-path" "/SAML2/SOAP/ArtifactResolution"
              "server path for artifact resolution service" in
  let f10 := pflag.String_ f9 "attribute-service-path" "/SAML2/SOAP/AttributeQuery"
              "server path for attribute query service" in
  {| cfgFile := "/etc/lite-idp/lite-idp.yaml";
     persistentFlags := pf; flags := f10;
     settings := viper.New; stdout := [] |}.

(** cobra's [ParseFlags]: the persistent flags are merged into
    [RootCmd.Flags()], the arguments are parsed, and [cfgFile], the
    variable behind [--config], holds that flag's value. *)
Definition ParseFlags (g : Globals) (args : list (string * string)) : Globals + error :=
  match pflag.Parse (pflag.AddFlagSet (flags g) (persistentFlags g)) args with
  | inr e => inr e
  | inl fs =>
      inl {| cfgFile := match pflag.Lookup fs "config" with
                        | Some f => pflag.Value f
                        | None => cfgFile g
                        end;
             persistentFlags := persistentFlags g; flags := fs;
             settings := settings g; stdout := stdout g |}
  end.

Definition withSettings (g : Globals) (v : viper.Viper) : Globals :=
  {| cfgFile := cfgFile g; persistentFlags := persistentFlags g; flags := flags g;
     settings := v; stdout := stdout g |}.

Definition print (g : Globals) (line : string) : Globals :=
  {| cfgFile := cfgFile g; persistentFlags := persistentFlags g; flags := flags g;
     settings := settings g; stdout := stdout g ++ [Println line] |}.

(** [func initConfig()] *)
Definition initConfig (g : Globals) (p : os.Process) : Globals :=
  let v := settings g in
  let v := if negb (String.eqb (cfgFile g) "")
           then viper.SetConfigFile v (cfgFile g)
           else viper.SetConfigName (viper.AddConfigPath v "/etc/lite-idp") "lite-idp" in
  let v := viper.AutomaticEnv v in
  let v := viper.SetEnvKeyReplacer v (strings.NewReplacer "-" "_") in
  let v := viper.BindPFlags v (flags g) in
  match viper.ReadInConfig v p with
  | (v, None) =>
      print (withSettings g v) ("using config file: " +:+ viper.ConfigFileUsed v)
  | (v, Some err) =>
      print (withSettings g v) ("failed to load config file: " +:+ Error err)
  end.

(** [type hstsHandler struct] and its [ServeHTTP] method. *)
Record hstsHandler := { handler : http.Handler }.

Definition hstsHandler_ServeHTTP (h : hstsHandler)
           (w : http.ResponseWriter) (r : http.Request)
  : http.ResponseWriter * list Output :=
  let w := http.mapHeader
             (fun hd => http.Add hd "Strict-Transport-Security"
                                 "max-age=63072000; includeSubDomains") w in
  http.ServeHTTP (handler h) w r.

(** [func hsts(h http.Handler) http.Handler] *)
Definition hsts (h : http.Handler) : http.Handler :=
  {| http.ServeHTTP := hstsHandler_ServeHTTP {| handler := h |} |}.

(** What [RunE] does besides computing its result, in program order. *)
Inductive Event :=
| MakeChan (capacity : nat)          (* stop := make(chan os.Signal, capacity) *)
| SignalNotify                       (* signal.Notify(stop, os.Interrupt) *)
| GoShutdownOnStop                   (* go func() { <-stop; server.Shutdown(ctx) }() *)
| LogInfo (msg : string)
| ListenAndServeTLS (server : http.Server tls.Config) (certFile keyFile : string).

(** The literal [&http.Server{...}] of [RunE]. *)
Definition newServer (g : Globals) (p : os.Process) (i : idp.IDP)
           (handler : http.Handler) : http.Server tls.Config :=
  {| http.TLSConfig := idp.TLSConfig i;
     http.Handler_ := handlers.CombinedLoggingHandler (hsts handler);
     http.Addr := viper.GetString (settings g) p "listen-address" |}.

(** [RootCmd.RunE].  [listen] is the value the blocking
    [server.ListenAndServeTLS] call returns; it is never nil. *)
Definition RunE (g : Globals) (p : os.Process) (i : idp.IDP)
           (listen : http.Server tls.Config -> error) : list Event * option error :=
  let ev := [MakeChan 1; SignalNotify] in
  match idp.Handler i with
  | inr err => (ev, Some err)
  | inl handler =>
      let server := newServer g p i handler in
      let ev := ev ++ [GoShutdownOnStop;
                       LogInfo ("listening for connections on " +:+ http.Addr server);
                       ListenAndServeTLS server "" ""] in
      match listen server with
      | ErrServerClosed => (ev ++ [LogInfo "server shutdown cleanly"], None)
      | err => (ev, Some err)
      end
  end.

(** cobra's [RootCmd.Execute()]: parse the flags, run the initializers
    registered with [OnInitialize] (here [initConfig]), run [RunE]. *)
Definition RootCmd_Execute (p : os.Process) (args : list (string * string))
           (i : idp.IDP) (listen : http.Server tls.Config -> error)
  : Globals * list Event * option error :=
  match ParseFlags init args with
  | inr e => (init, [], Some e)
  | inl g =>
      let g := initConfig g p in
      let '(ev, err) := RunE g p i listen in
      (g, ev, err)
  end.

(** How the process ends. *)
Record Exit := {
  code : nat;
  output : list Output;
  events : list Event
}.

(** [func Execute()], called by [main.main]: returning from it ends the
    process with status 0. *)
Definition Execute (p : os.Process) (args : list (string * string))
           (i : idp.IDP) (listen : http.Server tls.Config -> error) : Exit :=
  match RootCmd_Execute p args i listen with
  | (g, ev, Some err) =>
      {| code := 1; output := stdout g ++ [Println (Error err)]; events := ev |}
  | (g, ev, None) =>
      {| code := 0; output := stdout g; events := ev |}
  end.

End cmd.

(** ** [RunE], statement by statement, with its goroutine *)

(** [RunE] runs beside the goroutine it starts and beside the interrupts
    the process receives.  [step] gives the effect of one step of one of
    them; a run is a sequence of steps in any order that is enabled. *)

Module lifecycle.

(** The statement [RunE] is about to execute. *)
Inductive MainPC :=
| AtMakeChan                   (* stop := make(chan os.Signal, 1) *)
| AtNotify                     (* signal.Notify(stop, os.Interrupt) *)
| AtHandler                    (* handler, err := idp.Handler(); if err != nil ... *)
| AtGo                         (* server := ...; go func() { ... }() *)
| AtListen                     (* blocked in server.ListenAndServeTLS *)
| Returned (err : option error).

(** The statement the goroutine is about to execute. *)
Inductive WaiterPC :=
| NotStarted
| AtReceive                    (* <-stop *)
| AtShutdown                   (* server.Shutdown(context.Background()) *)
| Finished.

Record State := {
  main : MainPC;
  waiter : WaiterPC;
  capacity : nat;     (* capacity of the channel [stop]; 0 before it is made *)
  pending : nat;      (* signals waiting in [stop] *)
  notifying : bool;   (* interrupts are relayed to [stop] *)
  shutdowns : nat;    (* calls of server.Shutdown so far *)
  delivered : nat;    (* interrupts that were put into [stop] *)
  dropped : nat;      (* interrupts that found [stop] full *)
  killed : bool       (* an interrupt nobody asked for ended the process *)
}.

Definition start : State :=
  {| main := AtMakeChan; waiter := NotStarted; capacity := 0; pending := 0;
     notifying := false; shutdowns := 0; delivered := 0; dropped := 0;
     killed := false |}.

Inductive Step :=
| Main                          (* RunE executes its next statement *)
| ListenReturns (err : error)   (* the blocking serve call returns *)
| Waiter                        (* the goroutine executes its next statement *)
| Interrupt.                    (* the process receives an interrupt *)

Definition over (s : State) : bool :=
  killed s || match main s with Returned _ => true | _ => false end.

Definition setMain (s : State) (pc : MainPC) : State :=
  {| main := pc; waiter := waiter s; capacity := capacity s; pending := pending s;
     notifying := notifying s; shutdowns := shutdowns s; delivered := delivered s;
     dropped := dropped s; killed := killed s |}.

(** One statement of [RunE].  In [ListenAndServeTLS] it is blocked. *)
Definition stepMain (i : idp.IDP) (s : State) : option State :=
  match main s with
  | AtMakeChan =>
      Some {| main := AtNotify; waiter := waiter s; capacity := 1; pending := 0;
              notifying := notifying s; shutdowns := shutdowns s;
              delivered := delivered s; dropped := dropped s; killed := killed s |}
  | AtNotify =>
      Some {| main := AtHandler; waiter := waiter s; capacity := capacity s;
              pending := pending s; notifying := true; shutdowns := shutdowns s;
              delivered := delivered s; dropped := dropped s; killed := killed s |}
  | AtHandler =>
      match idp.Handler i with
      | inl _ => Some (setMain s AtGo)
      | inr err => Some (setMain s (Returned (Some err)))
      end
  | AtGo =>
      Some {| main := AtListen; waiter := AtReceive; capacity := capacity s;
              pending := pending s; notifying := notifying s; shutdowns := shutdowns s;
              delivered := delivered s; dropped := dropped s; killed := killed s |}
  | AtListen => None
  | Returned _ => None
  end.

(** [ListenAndServeTLS] returns [err]; it returns [http.ErrServerClosed]
    only after [Shutdown] was called.  Then [RunE] returns: nil for
    [http.ErrServerClosed], the error otherwise. *)
Definition stepListenReturns (s : State) (err : error) : option State :=
  match main s with
  | AtListen =>
      match err with
      | ErrServerClosed =>
          if Nat.ltb 0 (shutdowns s) then Some (setMain s (Returned None)) else None
      | _ => Some (setMain s (Returned (Some err)))
      end
  | _ => None
  end.

(** One statement of the goroutine.  The receive blocks while the channel
    is empty. *)
Definition stepWaiter (s : State) : option State :=
  match waiter s with
  | AtReceive =>
      match pending s with
      | O => None
      | S n =>
          Some {| main := main s; waiter := AtShutdown; capacity := capacity s;
                  pending := n; notifying := notifying s; shutdowns := shutdowns s;
                  delivered := delivered s; dropped := dropped s; killed := killed s |}
      end
  | AtShutdown =>
      Some {| main := main s; waiter := Finished; capacity := capacity s;
              pending := pending s; notifying := notifying s;
              shutdowns := S (shutdowns s);
              delivered := delivered s; dropped := dropped s; killed := killed s |}
  | NotStarted | Finished => None
  end.

(** An interrupt.  Once [Notify] is in effect it is sent to [stop] without
    blocking, so it is dropped when [stop] is full; before that it ends the
    process. *)
Definition stepInterrupt (s : State) : option State :=
  if notifying s then
    if Nat.ltb (pending s) (capacity s) then
      Some {| main := main s; waiter := waiter s; capacity := capacity s;
              pending := S (pending s); notifying := notifying s;
              shutdowns := shutdowns s; delivered := S (delivered s);
              dropped := dropped s; killed := killed s |}
    else
      Some {| main := main s; waiter := waiter s; capacity := capacity s;
              pending := pending s; notifying := notifying s;
              shutdowns := shutdowns s; delivered := delivered s;
              dropped := S (dropped s); killed := killed s |}
  else
    Some {| main := main s; waiter := waiter s; capacity := capacity s;
            pending := pending s; notifying := notifying s;
            shutdowns := shutdowns s; delivered := delivered s;
            dropped := dropped s; killed := true |}.

(** Nothing happens in a process that is over: when [RunE] has returned
    the process exits, and its goroutine with it. *)
Definition step (i : idp.IDP) (s : State) (l : Step) : option State :=
  if over s then None else
  match l with
  | Main => stepMain i s
  | ListenReturns err => stepListenReturns s err
  | Waiter => stepWaiter s
  | Interrupt => stepInterrupt s
  end.

Fixpoint run (i : idp.IDP) (s : State) (steps : list Step) : option State :=
  match steps with
  | [] => Some s
  | l :: steps' =>
      match step i s l with
      | Some s' => run i s' steps'
      | None => None
      end
  end.

(** The signals the goroutine has taken out of [stop]. *)
Definition received (s : State) : nat :=
  match waiter s with
  | AtShutdown | Finished => 1
  | NotStarted | AtReceive => 0
  end.

(** The steps that take a serving process with a signal to a clean
    return. *)
Definition windDown (s : State) : list Step :=
  match waiter s with
  | AtReceive => [Waiter; Waiter; ListenReturns ErrServerClosed]
  | AtShutdown => [Waiter; ListenReturns ErrServerClosed]
  | _ => [ListenReturns ErrServerClosed]
  end.

End lifecycle.

(** * Vocabulary of the properties *)

(** Replacing every ["-"] by ["_"], byte by byte. *)
Definition dashToUnderscore (c : ascii) : ascii :=
  if Ascii.eqb c "-" then "_"%char else c.

(** The flag after [--name=value] was parsed. *)
Definition changeTo (value : string) (f : pflag.Flag) : pflag.Flag :=
  {| pflag.Name := pflag.Name f; pflag.Shorthand := pflag.Shorthand f;
     pflag.Usage := pflag.Usage f; pflag.Value := value;
     pflag.DefValue := pflag.DefValue f; pflag.Changed := true |}.

(** The value the caller supplied for a flag: the last occurrence wins. *)
Fixpoint supplied (args : list (string * string)) (name : string) : option string :=
  match args with
  | [] => None
  | (n, v) :: args' =>
      match supplied args' name with
      | Some v' => Some v'
      | None => if String.eqb n name then Some v else None
      end
  end.

Definition afterParse (args : list (string * string)) (name : string)
           (f : pflag.Flag) : pflag.Flag :=
  match supplied args name with
  | Some v => changeTo v f
  | None => f
  end.

(** The flag set [RootCmd.Flags()] that is parsed and bound: the flags
    declared on it, then the persistent [--config]. *)
Definition declared : pflag.FlagSet :=
  pflag.AddFlagSet (cmd.flags cmd.init) (cmd.persistentFlags cmd.init).

(** The name of the environment variable of a setting, in the words of
    the specification: upper-case the name, replace every ["-"] by ["_"]. *)
Definition envVarName (name : string) : string :=
  strings.mapBytes dashToUnderscore (strings.ToUpper name).

(** The four sources of a setting.  The Environment source defines a
    setting when its variable is set to a non-empty value; the Default
    source is the default declared with the flag. *)
Definition flagSource (args : list (string * string)) (key : string) : option string :=
  supplied args key.

Definition environmentSource (p : os.Process) (key : string) : option string :=
  match os.environ p !! envVarName key with
  | Some val => if String.eqb val "" then None else Some val
  | None => None
  end.

Definition fileSource (loaded : gmap string string) (key : string) : option string :=
  loaded !! key.

Definition defaultSource (key : string) : option string :=
  option_map pflag.DefValue (pflag.Lookup declared key).

(** The value of the first source, in precedence order, that defines it. *)
Fixpoint highest (sources : list (option string)) : option string :=
  match sources with
  | [] => None
  | Some v :: _ => Some v
  | None :: rest => highest rest
  end.

(** The registry as [initConfig] has set it up when it reads the file. *)
Definition configured (g : cmd.Globals) : viper.Viper :=
  let v := cmd.settings g in
  let v := if negb (String.eqb (cmd.cfgFile g) "")
           then viper.SetConfigFile v (cmd.cfgFile g)
           else viper.SetConfigName (viper.AddConfigPath v "/etc/lite-idp") "lite-idp" in
  let v := viper.AutomaticEnv v in
  let v := viper.SetEnvKeyReplacer v (strings.NewReplacer "-" "_") in
  viper.BindPFlags v (cmd.flags g).

(** The file type is one the reader supports. *)
Definition supportedType (path : string) : bool :=
  existsb (String.eqb (viper.getConfigType path)) viper.SupportedExts.

(** The file at [path] is missing, unreadable or unparsable. *)
Definition fileFails (p : os.Process) (path : string) : bool :=
  match os.files p !! path with
  | Some (os.Parsed _) => false
  | _ => true
  end.

(** The settings [initConfig] read from the configuration file. *)
Definition loaded (g : cmd.Globals) (p : os.Process) : gmap string string :=
  viper.config (cmd.settings (cmd.initConfig g p)).

(** The effective value of a setting once start-up has resolved it. *)
Definition effective (g : cmd.Globals) (p : os.Process) (key : string) : string :=
  viper.GetString (cmd.settings (cmd.initConfig g p)) p key.

(** Concrete inputs. *)
Definition globalsOf (args : list (string * string)) : cmd.Globals :=
  match cmd.ParseFlags cmd.init args with
  | inl g => g
  | inr _ => cmd.init
  end.

Definition sampleFile : gmap string string := {[ "listen-address" := "10.0.0.1:443" ]}.

Definition sampleProcess (env : gmap string string) (file : gmap string string)
  : os.Process :=
  {| os.environ := env;
     os.files := {[ "/etc/lite-idp/lite-idp.yaml" := os.Parsed file ]} |}.

Definition sampleEnv : gmap string string := {[ "LISTEN_ADDRESS" := "0.0.0.0:8443" ]}.


Definition brokenProcess (f : option os.File) : os.Process :=
  {| os.environ := sampleEnv;
     os.files := match f with
                 | Some file => {[ "/etc/lite-idp/lite-idp.yaml" := file ]}
                 | None => ∅
                 end |}.

Definition unparsableFile : os.File := os.Unparsable "yaml: did not find expected key".

Definition okHandler : http.Handler := http.HandlerFunc (fun _ => [http.DoWrite "ok"]).

Definition sampleIDP : idp.IDP := {| idp.Handler := inl okHandler; idp.TLSConfig := "tls" |}.


Abbreviation STS := "Strict-Transport-Security" (only parsing).
Abbreviation STSValue := "max-age=63072000; includeSubDomains" (only parsing).







(** ** Vocabulary of the further properties *)


(** The process with one environment variable unset. *)
Definition unsetenv (p : os.Process) (name : string) : os.Process :=
  {| os.environ := delete name (os.environ p); os.files := os.files p |}.






(** The bytes of a kebab-case name, and those of an upper-case
    environment variable name. *)
Definition kebabByte (c : ascii) : bool :=
  let n := nat_of_ascii c in
  (Nat.leb 97 n && Nat.leb n 122) || (Nat.leb 48 n && Nat.leb n 57) || Nat.eqb n 45.

Definition envByte (c : ascii) : bool :=
  let n := nat_of_ascii c in
  (Nat.leb 65 n && Nat.leb n 90) || (Nat.leb 48 n && Nat.leb n 57) || Nat.eqb n 95.

Fixpoint allBytes (f : ascii -> bool) (s : string) : bool :=
  match s with
  | EmptyString => true
  | String c s' => f c && allBytes f s'
  end.

Definition emptyVariableProcess : os.Process :=
  sampleProcess {[ "LISTEN_ADDRESS" := "" ]} sampleFile.








(** What holds in every state of every run. *)
Definition Inv (i : idp.IDP) (s : lifecycle.State) : Prop :=
  lifecycle.pending s <= lifecycle.capacity s /\
  lifecycle.capacity s =
    match lifecycle.main s with lifecycle.AtMakeChan => 0 | _ => 1 end /\
  lifecycle.notifying s =
    match lifecycle.main s with
    | lifecycle.AtMakeChan | lifecycle.AtNotify => false
    | _ => true
    end /\
  (lifecycle.notifying s = false ->
   lifecycle.pending s = 0 /\ lifecycle.dropped s = 0) /\
  (lifecycle.killed s = true -> lifecycle.notifying s = false) /\
  match lifecycle.main s with
  | lifecycle.AtMakeChan | lifecycle.AtNotify | lifecycle.AtHandler =>
      lifecycle.waiter s = lifecycle.NotStarted
  | lifecycle.AtGo =>
      lifecycle.waiter s = lifecycle.NotStarted /\ exists h, idp.Handler i = inl h
  | lifecycle.AtListen =>
      lifecycle.waiter s <> lifecycle.NotStarted /\ exists h, idp.Handler i = inl h
  | lifecycle.Returned r =>
      (r = None -> lifecycle.waiter s = lifecycle.Finished) /\
      exists e, forall g p, r = snd (cmd.RunE g p i (fun _ => e))
  end /\
  lifecycle.shutdowns s =
    match lifecycle.waiter s with lifecycle.Finished => 1 | _ => 0 end /\
  lifecycle.delivered s = lifecycle.pending s + lifecycle.received s /\
  (lifecycle.delivered s = 0 -> lifecycle.dropped s = 0).

(** A run in which the first interrupt arrives before the goroutine
    exists and a second one while the first is still in the channel. *)
Definition sampleRun : list lifecycle.Step :=
  [lifecycle.Main; lifecycle.Main; lifecycle.Interrupt; lifecycle.Main; lifecycle.Main;
   lifecycle.Interrupt; lifecycle.Waiter; lifecycle.Waiter;
   lifecycle.ListenReturns ErrServerClosed].

Definition stateAfter (steps : list lifecycle.Step) : lifecycle.State :=
  default lifecycle.start (lifecycle.run sampleIDP lifecycle.start steps).

(** * Properties *)

(** ** Strings *)

Section StringFacts.

Lemma toUpper_toLower_byte (c : ascii) :
  strings.toUpperByte (strings.toLowerByte c) = strings.toUpperByte c.
Proof. destruct c as [[] [] [] [] [] [] [] []]; reflexivity. Qed.

Lemma ToUpper_ToLower (s : string) :
  strings.ToUpper (strings.ToLower s) = strings.ToUpper s.
Proof.
  unfold strings.ToUpper, strings.ToLower.
  induction s as [|c s IH]; simpl; [reflexivity|].
  now rewrite toUpper_toLower_byte, IH.
Qed.

Lemma prefix_dash (c : ascii) (s : string) :
  String.prefix "-" (String c s) = Ascii.eqb c "-".
Proof.
  destruct (Ascii.eqb_spec c "-") as [->|Hne].
  - destruct s; reflexivity.
  - cbn [String.prefix]. destruct (ascii_dec "-" c) as [E|_]; [congruence|reflexivity].
Qed.

Lemma Replace_dash (s : string) :
  strings.Replace (strings.NewReplacer "-" "_") s = strings.mapBytes dashToUnderscore s.
Proof.
  unfold strings.Replace.
  induction s as [|c s IH]; [reflexivity|].
  cbn [strings.replaceFrom strings.mapBytes strings.old strings.new].
  rewrite prefix_dash. unfold dashToUnderscore at 1.
  destruct (Ascii.eqb c "-"); cbn; now rewrite IH.
Qed.

End StringFacts.

(** ** Flags *)

Section FlagFacts.

Lemma Set_Lookup fs n v fs' k :
  pflag.Set_ fs n v = Some fs' ->
  pflag.Lookup fs' k =
    if String.eqb n k then option_map (changeTo v) (pflag.Lookup fs k)
    else pflag.Lookup fs k.
Proof.
  revert fs'. induction fs as [|f fs IH]; intros fs' H; [discriminate|].
  cbn [pflag.Set_] in H.
  destruct (String.eqb_spec (pflag.Name f) n) as [En|En].
  - injection H as <-. unfold pflag.Lookup. cbn [List.find pflag.Name].
    subst n. destruct (String.eqb (pflag.Name f) k); reflexivity.
  - destruct (pflag.Set_ fs n v) as [fs1|] eqn:E1; [|discriminate].
    injection H as <-. specialize (IH _ eq_refl).
    unfold pflag.Lookup in *. cbn [List.find].
    destruct (String.eqb_spec (pflag.Name f) k) as [Ek|Ek]; [|exact IH].
    destruct (String.eqb_spec n k) as [Enk|_]; [congruence|reflexivity].
Qed.

Lemma Set_names fs n v fs' :
  pflag.Set_ fs n v = Some fs' -> List.map pflag.Name fs' = List.map pflag.Name fs.
Proof.
  revert fs'. induction fs as [|f fs IH]; intros fs' H; [discriminate|].
  cbn [pflag.Set_] in H.
  destruct (String.eqb (pflag.Name f) n).
  - injection H as <-. reflexivity.
  - destruct (pflag.Set_ fs n v) as [fs1|]; [|discriminate].
    injection H as <-. cbn. now rewrite (IH _ eq_refl).
Qed.

Lemma Parse_Lookup args : forall fs fs' k,
  pflag.Parse fs args = inl fs' ->
  pflag.Lookup fs' k = option_map (afterParse args k) (pflag.Lookup fs k).
Proof.
  induction args as [|[n v] args IH]; intros fs fs' k H.
  - injection H as <-. unfold afterParse. cbn. now destruct (pflag.Lookup fs k).
  - cbn [pflag.Parse] in H.
    destruct (pflag.Set_ fs n v) as [fs1|] eqn:E1; [|discriminate].
    rewrite (IH _ _ k H), (Set_Lookup _ _ _ _ k E1).
    unfold afterParse. cbn [supplied].
    destruct (supplied args k), (String.eqb n k), (pflag.Lookup fs k); reflexivity.
Qed.

Lemma Parse_names args : forall fs fs',
  pflag.Parse fs args = inl fs' -> List.map pflag.Name fs' = List.map pflag.Name fs.
Proof.
  induction args as [|[n v] args IH]; intros fs fs' H.
  - now injection H as <-.
  - cbn [pflag.Parse] in H.
    destruct (pflag.Set_ fs n v) as [fs1|] eqn:E1; [|discriminate].
    rewrite (IH _ _ H). eapply Set_names, E1.
Qed.

(** Parsing fails only on a name that is not declared. *)
Lemma Set_declared fs n v :
  In n (List.map pflag.Name fs) -> exists fs', pflag.Set_ fs n v = Some fs'.
Proof.
  induction fs as [|f fs IH]; intros H; [destruct H|].
  cbn [pflag.Set_]. destruct (String.eqb_spec (pflag.Name f) n) as [E|E]; [eauto|].
  destruct H as [H|H]; [congruence|].
  destruct (IH H) as [fs' ->]. cbn. eauto.
Qed.

Lemma Parse_declared args : forall fs,
  Forall (fun a => In (fst a) (List.map pflag.Name fs)) args ->
  exists fs', pflag.Parse fs args = inl fs'.
Proof.
  induction args as [|[n v] args IH]; intros fs H; [cbn; eauto|].
  inversion H as [|a l Hn Hrest]; subst. cbn [fst] in Hn.
  destruct (Set_declared fs n v Hn) as [fs1 E1].
  cbn [pflag.Parse]. rewrite E1. apply IH.
  now rewrite (Set_names _ _ _ _ E1).
Qed.

End FlagFacts.

(** ** The registry *)

Section ViperFacts.

Lemma find_app {A} (f : A -> bool) (l1 l2 : list A) :
  List.find f (l1 ++ l2) =
    match List.find f l1 with Some x => Some x | None => List.find f l2 end.
Proof. induction l1 as [|a l1 IH]; cbn; [reflexivity|]. now destruct (f a). Qed.

(** With distinct names, searching from either end finds the same flag. *)
Lemma find_rev_unique (fs : list pflag.Flag) (k : string) :
  NoDup (List.map pflag.Name fs) ->
  List.find (fun f => String.eqb (pflag.Name f) k) (rev fs) = pflag.Lookup fs k.
Proof.
  unfold pflag.Lookup.
  induction fs as [|a fs IH]; intros Hnd; [reflexivity|].
  inversion Hnd as [|x l Hnotin Hnd']; subst.
  cbn [rev List.find]. rewrite find_app, (IH Hnd'). cbn [List.find].
  destruct (String.eqb_spec (pflag.Name a) k) as [E|E].
  - destruct (List.find _ fs) as [x|] eqn:Ef; [|reflexivity].
    apply List.find_some in Ef as [Hin Hx].
    apply String.eqb_eq in Hx. exfalso. apply Hnotin, list_elem_of_In.
    rewrite E, <- Hx. now apply List.in_map.
  - now destruct (List.find _ fs).
Qed.

Lemma BindPFlags_app v fs f :
  viper.BindPFlags v (fs ++ [f]) = viper.BindPFlag (viper.BindPFlags v fs) (pflag.Name f) f.
Proof. unfold viper.BindPFlags. now rewrite fold_left_app. Qed.

(** Binding a flag set touches only the flag table. *)
Lemma BindPFlags_frame v fs :
  viper.configFile (viper.BindPFlags v fs) = viper.configFile v /\
  viper.configName (viper.BindPFlags v fs) = viper.configName v /\
  viper.configPaths (viper.BindPFlags v fs) = viper.configPaths v /\
  viper.automaticEnvApplied (viper.BindPFlags v fs) = viper.automaticEnvApplied v /\
  viper.envKeyReplacer (viper.BindPFlags v fs) = viper.envKeyReplacer v /\
  viper.config (viper.BindPFlags v fs) = viper.config v /\
  viper.defaults (viper.BindPFlags v fs) = viper.defaults v.
Proof.
  induction fs as [|f fs IH] using rev_ind; [easy|].
  rewrite BindPFlags_app. exact IH.
Qed.

(** The last binding of a key is the one the table holds. *)
Lemma BindPFlags_lookup v fs k :
  viper.pflags (viper.BindPFlags v fs) !! k =
    match List.find (fun f => String.eqb (strings.ToLower (pflag.Name f)) k) (rev fs) with
    | Some f => Some f
    | None => viper.pflags v !! k
    end.
Proof.
  induction fs as [|f fs IH] using rev_ind; [reflexivity|].
  rewrite BindPFlags_app, rev_app_distr. cbn [rev app List.find viper.pflags viper.BindPFlag].
  destruct (String.eqb_spec (strings.ToLower (pflag.Name f)) k) as [E|E].
  - subst k. apply lookup_insert_eq.
  - rewrite lookup_insert_ne by exact E. exact IH.
Qed.

(** For a flag set whose names are distinct and already lower-case, the
    table is the flag set. *)
Lemma BindPFlags_Lookup v fs k :
  NoDup (List.map pflag.Name fs) ->
  Forall (fun n => strings.ToLower n = n) (List.map pflag.Name fs) ->
  viper.pflags (viper.BindPFlags v fs) !! k =
    match pflag.Lookup fs k with
    | Some f => Some f
    | None => viper.pflags v !! k
    end.
Proof.
  intros Hnd Hlow. rewrite BindPFlags_lookup, <- (find_rev_unique fs k Hnd).
  assert (Hl : Forall (fun f => strings.ToLower (pflag.Name f) = pflag.Name f) (rev fs)).
  { apply Forall_forall. intros f Hf. rewrite Forall_forall in Hlow.
    apply Hlow, list_elem_of_In, List.in_map, List.in_rev.
    now apply list_elem_of_In. }
  (* the two predicates agree on the flags of [fs] *)
  assert (E : List.find (fun f => String.eqb (strings.ToLower (pflag.Name f)) k) (rev fs)
              = List.find (fun f => String.eqb (pflag.Name f) k) (rev fs)).
  { induction Hl as [|f l Hf _ IH]; [reflexivity|].
    cbn [List.find]. now rewrite Hf, IH. }
  now rewrite E.
Qed.

(** Reading the configuration touches only the loaded settings and the
    remembered file name. *)
Lemma ReadInConfig_frame v p :
  let v' := fst (viper.ReadInConfig v p) in
  viper.automaticEnvApplied v' = viper.automaticEnvApplied v /\
  viper.envKeyReplacer v' = viper.envKeyReplacer v /\
  viper.defaults v' = viper.defaults v /\
  viper.pflags v' = viper.pflags v.
Proof.
  unfold viper.ReadInConfig, viper.getConfigFile.
  destruct (negb (String.eqb (viper.configFile v) "")).
  - destruct (negb _); [easy|].
    destruct (os.files p !! viper.configFile v) as [[]|]; easy.
  - destruct (viper.findConfigFile v p) as [cf|e]; [|easy].
    destruct (negb _); [easy|].
    destruct (os.files p !! cf) as [[]|]; easy.
Qed.

End ViperFacts.

(** ** Configuration resolution *)

Section Resolution.

Lemma initConfig_unfold g p :
  cmd.initConfig g p =
    match viper.ReadInConfig (configured g) p with
    | (v, None) =>
        cmd.print (cmd.withSettings g v) ("using config file: " +:+ viper.ConfigFileUsed v)
    | (v, Some err) =>
        cmd.print (cmd.withSettings g v) ("failed to load config file: " +:+ Error err)
    end.
Proof. reflexivity. Qed.

Lemma initConfig_settings g p :
  cmd.settings (cmd.initConfig g p) = fst (viper.ReadInConfig (configured g) p).
Proof.
  rewrite initConfig_unfold.
  now destruct (viper.ReadInConfig (configured g) p) as [v [e|]].
Qed.

Lemma declared_names_NoDup : NoDup (List.map pflag.Name declared).
Proof. apply (bool_decide_unpack _). vm_compute. reflexivity. Qed.

Lemma declared_names_lower :
  Forall (fun n => strings.ToLower n = n) (List.map pflag.Name declared).
Proof. vm_compute. repeat constructor. Qed.

Lemma ParseFlags_inv args g :
  cmd.ParseFlags cmd.init args = inl g ->
  pflag.Parse declared args = inl (cmd.flags g) /\
  cmd.settings g = viper.New /\
  cmd.stdout g = [] /\
  cmd.cfgFile g = match supplied args "config" with
                  | Some v => v
                  | None => "/etc/lite-idp/lite-idp.yaml"
                  end.
Proof.
  unfold cmd.ParseFlags. fold declared.
  destruct (pflag.Parse declared args) as [fs|e] eqn:E; [|discriminate].
  intros H. injection H as <-. cbn [cmd.flags cmd.settings cmd.stdout cmd.cfgFile].
  repeat split.
  rewrite (Parse_Lookup _ _ _ "config" E). unfold afterParse.
  now destruct (supplied args "config").
Qed.

Lemma Set_Some_Lookup fs n v fs' :
  pflag.Set_ fs n v = Some fs' -> is_Some (pflag.Lookup fs n).
Proof.
  revert fs'. induction fs as [|f fs IH]; intros fs' H; [discriminate|].
  cbn [pflag.Set_] in H. unfold pflag.Lookup in *. cbn [List.find].
  destruct (String.eqb (pflag.Name f) n); [eauto|].
  destruct (pflag.Set_ fs n v) as [fs1|]; [|discriminate]. eauto.
Qed.

(** A flag the caller supplied is a declared flag, or parsing fails. *)
Lemma Parse_supplied args : forall fs fs' k v,
  pflag.Parse fs args = inl fs' -> supplied args k = Some v ->
  is_Some (pflag.Lookup fs k).
Proof.
  induction args as [|[n w] args IH]; intros fs fs' k v H Hs; [discriminate|].
  cbn [pflag.Parse] in H. cbn [supplied] in Hs.
  destruct (pflag.Set_ fs n w) as [fs1|] eqn:E1; [|discriminate].
  destruct (supplied args k) as [v'|] eqn:Es.
  - pose proof (IH _ _ _ _ H Es) as Hl.
    rewrite (Set_Lookup _ _ _ _ k E1) in Hl.
    destruct (String.eqb n k), (pflag.Lookup fs k); cbn in Hl; eauto;
      now destruct Hl.
  - destruct (String.eqb_spec n k) as [->|]; [|discriminate].
    eapply Set_Some_Lookup, E1.
Qed.

(** The registry as configured, field by field. *)
Lemma configured_env g :
  viper.automaticEnvApplied (configured g) = true /\
  viper.envKeyReplacer (configured g) = Some (strings.NewReplacer "-" "_").
Proof.
  unfold configured.
  match goal with
  | |- context [viper.BindPFlags ?v ?fs] =>
      destruct (BindPFlags_frame v fs) as (_ & _ & _ & Ha & He & _ & _)
  end.
  rewrite Ha, He. split; reflexivity.
Qed.

Lemma configured_tables g :
  cmd.settings g = viper.New ->
  viper.config (configured g) = ∅ /\ viper.defaults (configured g) = ∅.
Proof.
  intros Hs. unfold configured. rewrite Hs.
  match goal with
  | |- context [viper.BindPFlags ?v ?fs] =>
      destruct (BindPFlags_frame v fs) as (_ & _ & _ & _ & _ & Hc & Hd)
  end.
  rewrite Hc, Hd. cbn [viper.config viper.defaults viper.SetEnvKeyReplacer viper.AutomaticEnv].
  destruct (negb (String.eqb (cmd.cfgFile g) "")); [|split; reflexivity].
  unfold viper.SetConfigFile. destruct (String.eqb (cmd.cfgFile g) ""); split; reflexivity.
Qed.

Lemma configured_pflags g k :
  cmd.settings g = viper.New ->
  NoDup (List.map pflag.Name (cmd.flags g)) ->
  Forall (fun n => strings.ToLower n = n) (List.map pflag.Name (cmd.flags g)) ->
  viper.pflags (configured g) !! k = pflag.Lookup (cmd.flags g) k.
Proof.
  intros Hs Hnd Hlow. unfold configured. rewrite Hs.
  rewrite (BindPFlags_Lookup _ _ k Hnd Hlow).
  destruct (pflag.Lookup (cmd.flags g) k); [reflexivity|].
  cbn [viper.pflags viper.SetEnvKeyReplacer viper.AutomaticEnv].
  destruct (negb (String.eqb (cmd.cfgFile g) "")); [|reflexivity].
  unfold viper.SetConfigFile. destruct (String.eqb (cmd.cfgFile g) ""); reflexivity.
Qed.

(** The variable [getEnv] looks up is the one the specification names. *)
Lemma getEnv_environmentSource g p k :
  viper.getEnv (fst (viper.ReadInConfig (configured g) p)) p k = environmentSource p k.
Proof.
  destruct (ReadInConfig_frame (configured g) p) as (_ & He & _ & _).
  destruct (configured_env g) as (_ & Hr).
  unfold viper.getEnv, viper.envName, environmentSource, os.LookupEnv, envVarName.
  rewrite He, Hr, Replace_dash. reflexivity.
Qed.

(** As declared, no flag is changed and each holds its default. *)
Lemma declared_unset k d :
  pflag.Lookup declared k = Some d ->
  pflag.Changed d = false /\ pflag.Value d = pflag.DefValue d.
Proof.
  unfold pflag.Lookup. intros Ed. apply List.find_some in Ed as [Hin _].
  revert d Hin. apply List.Forall_forall. vm_compute. repeat constructor.
Qed.

(** Resolution after start-up: the sources in precedence order. *)
Lemma find_highest args g p k :
  cmd.ParseFlags cmd.init args = inl g ->
  viper.find (cmd.settings (cmd.initConfig g p)) p k =
    highest [flagSource args k;
             environmentSource p k;
             fileSource (viper.config (cmd.settings (cmd.initConfig g p))) k;
             defaultSource k].
Proof.
  intros Hg. destruct (ParseFlags_inv _ _ Hg) as (Hp & Hs & _ & _).
  rewrite initConfig_settings.
  pose proof (getEnv_environmentSource g p k) as Henv.
  destruct (ReadInConfig_frame (configured g) p) as (Ha & _ & Hd & Hf).
  destruct (configured_env g) as (Ha' & _).
  destruct (configured_tables g Hs) as (_ & Hd').
  assert (Hfl : viper.pflags (configured g) !! k = pflag.Lookup (cmd.flags g) k).
  { apply configured_pflags; [exact Hs| |]; rewrite (Parse_names _ _ _ Hp).
    - exact declared_names_NoDup.
    - exact declared_names_lower. }
  unfold viper.find. rewrite Hf, Hfl, Ha, Ha', Henv, Hd, Hd', lookup_empty.
  rewrite (Parse_Lookup _ _ _ k Hp).
  unfold flagSource, fileSource, defaultSource, afterParse. cbn [highest].
  destruct (pflag.Lookup declared k) as [d|] eqn:Ed; cbn [option_map].
  - destruct (supplied args k) as [v|]; [reflexivity|].
    (* an unset flag still holds its declared default *)
    destruct (declared_unset _ _ Ed) as [-> ->].
    destruct (environmentSource p k); [reflexivity|].
    now destruct (_ !! k).
  - destruct (supplied args k) as [v|] eqn:Es.
    + destruct (Parse_supplied _ _ _ _ _ Hp Es) as [d' Hd'']. congruence.
    + destruct (environmentSource p k); [reflexivity|].
      now destruct (_ !! k).
Qed.

Lemma configured_configFile g :
  cmd.settings g = viper.New ->
  viper.configFile (configured g) = cmd.cfgFile g.
Proof.
  intros Hs. unfold configured. rewrite Hs.
  match goal with
  | |- context [viper.BindPFlags ?v ?fs] =>
      destruct (BindPFlags_frame v fs) as (Hc & _)
  end.
  rewrite Hc. cbn [viper.configFile viper.SetEnvKeyReplacer viper.AutomaticEnv].
  destruct (String.eqb_spec (cmd.cfgFile g) "") as [E|E]; cbn [negb].
  - now rewrite E.
  - unfold viper.SetConfigFile.
    destruct (String.eqb_spec (cmd.cfgFile g) ""); [contradiction|reflexivity].
Qed.

(** With an explicit path, [ReadInConfig] reads that file and no other. *)
Lemma ReadInConfig_explicit g p :
  cmd.settings g = viper.New -> cmd.cfgFile g <> "" ->
  viper.ReadInConfig (configured g) p =
    if negb (supportedType (cmd.cfgFile g))
    then (configured g, Some (UnsupportedConfigError (viper.getConfigType (cmd.cfgFile g))))
    else match os.files p !! cmd.cfgFile g with
         | None =>
             (configured g,
              Some (PathError "open" (cmd.cfgFile g) "no such file or directory"))
         | Some os.Unreadable =>
             (configured g, Some (PathError "open" (cmd.cfgFile g) "permission denied"))
         | Some (os.Unparsable why) =>
             (viper.setConfig (configured g) ∅, Some (ConfigParseError why))
         | Some (os.Parsed m) => (viper.setConfig (configured g) m, None)
         end.
Proof.
  intros Hs Hne. unfold viper.ReadInConfig, viper.getConfigFile, supportedType.
  rewrite (configured_configFile g Hs).
  destruct (String.eqb_spec (cmd.cfgFile g) ""); [contradiction|reflexivity].
Qed.

(** Whatever happens to the file, [ReadInConfig] returns: with no error
    and the settings of a parsed file, or with an error and no settings. *)
Lemma ReadInConfig_result v p :
  viper.config v = ∅ ->
  match viper.ReadInConfig v p with
  | (v', None) =>
      exists m, os.files p !! viper.configFile v' = Some (os.Parsed m) /\
                viper.config v' = m
  | (v', Some _) => viper.config v' = ∅
  end.
Proof.
  intros Hc. unfold viper.ReadInConfig, viper.getConfigFile.
  destruct (negb (String.eqb (viper.configFile v) "")).
  - destruct (negb _); [exact Hc|].
    destruct (os.files p !! viper.configFile v) as [[|why|m]|] eqn:E; cbn; eauto.
  - destruct (viper.findConfigFile v p) as [cf|e]; [|exact Hc].
    destruct (negb _); [exact Hc|].
    destruct (os.files p !! cf) as [[|why|m]|] eqn:E; cbn; eauto.
Qed.


Lemma loaded_failed args g p :
  cmd.ParseFlags cmd.init args = inl g ->
  cmd.cfgFile g <> "" -> fileFails p (cmd.cfgFile g) = true ->
  viper.config (cmd.settings (cmd.initConfig g p)) = ∅ /\
  exists err, cmd.stdout (cmd.initConfig g p) =
                [Println ("failed to load config file: " +:+ Error err)].
Proof.
  intros Hg Hne Hfail. destruct (ParseFlags_inv _ _ Hg) as (_ & Hs & Hout & _).
  destruct (configured_tables g Hs) as (Hc & _).
  rewrite initConfig_unfold, (ReadInConfig_explicit g p Hs Hne).
  unfold fileFails in Hfail.
  destruct (negb (supportedType (cmd.cfgFile g)));
    [|destruct (os.files p !! cmd.cfgFile g) as [[|why|m]|]; try discriminate];
    cbn [cmd.print cmd.withSettings cmd.settings cmd.stdout viper.config viper.setConfig];
    rewrite Hout; eauto.
Qed.

End Resolution.

(** ** Precedence *)

(** Shared core of the precedence claims. *)
Lemma C1_core (p : os.Process) (args : list (string * string))
      (g : cmd.Globals) (k : string) :
  cmd.ParseFlags cmd.init args = inl g ->
  strings.ToLower k = k ->
  (effective g p k =
     default "" (highest [flagSource args k; environmentSource p k;
                          fileSource (loaded g p) k; defaultSource k])) /\
  (forall f, flagSource args k = Some f -> effective g p k = f) /\
  (forall e, flagSource args k = None -> environmentSource p k = Some e ->
             effective g p k = e) /\
  (forall c, flagSource args k = None -> environmentSource p k = None ->
             fileSource (loaded g p) k = Some c -> effective g p k = c) /\
  (forall d, flagSource args k = None -> environmentSource p k = None ->
             fileSource (loaded g p) k = None -> defaultSource k = Some d ->
             effective g p k = d).
Proof.
  intros Hg Hk.
  assert (E : effective g p k =
              default "" (highest [flagSource args k; environmentSource p k;
                                   fileSource (loaded g p) k; defaultSource k])).
  { unfold effective, viper.GetString. rewrite Hk. now rewrite (find_highest args g p k Hg). }
  split; [exact E|]. rewrite E. cbn [highest].
  repeat split.
  - now intros f ->.
  - now intros e -> ->.
  - now intros c -> -> ->.
  - now intros d -> -> -> ->.
Qed.


(** ** The middleware stack *)

Section Middleware.










End Middleware.

Section Stack.



End Stack.

(** * The claims *)





(** C3.  With the handler built, [RunE] reports success exactly when the
    blocking serve call returns [http.ErrServerClosed], and the process
    then exits with status 0 without printing an error; any other error is
    returned, printed by [Execute], and the process exits with status 1.
    A handler that cannot be built is reported the same way. *)
Theorem C3_server_closed_is_success (p : os.Process) (args : list (string * string))
        (g : cmd.Globals) (i : idp.IDP) (listen : http.Server tls.Config -> error) :
  cmd.ParseFlags cmd.init args = inl g ->
  let g' := cmd.initConfig g p in
  let exit := cmd.Execute p args i listen in
  (forall h, idp.Handler i = inl h ->
     (listen (cmd.newServer g' p i h) = ErrServerClosed ->
      snd (cmd.RunE g' p i listen) = None /\
      cmd.code exit = 0 /\ cmd.output exit = cmd.stdout g') /\
     (forall err, listen (cmd.newServer g' p i h) = err -> err <> ErrServerClosed ->
      snd (cmd.RunE g' p i listen) = Some err /\
      cmd.code exit = 1 /\
      cmd.output exit = cmd.stdout g' ++ [Println (Error err)])) /\
  (forall err, idp.Handler i = inr err ->
     snd (cmd.RunE g' p i listen) = Some err /\
     cmd.code exit = 1 /\
     cmd.output exit = cmd.stdout g' ++ [Println (Error err)]).
Proof.
  intros Hg g' exit. subst g' exit.
  unfold cmd.Execute, cmd.RootCmd_Execute. rewrite Hg. unfold cmd.RunE.
  split.
  - intros h Hh. rewrite Hh. split.
    + intros ->. now cbn.
    + intros err Herr Hne. rewrite Herr.
      destruct err; try contradiction; now cbn.
  - intros err Herr. rewrite Herr. now cbn.
Qed.

Lemma C3_server_closed_is_success_witness :
  cmd.code (cmd.Execute (sampleProcess sampleEnv sampleFile) [] sampleIDP
                        (fun _ => ErrServerClosed)) = 0 /\
  cmd.code (cmd.Execute (sampleProcess sampleEnv sampleFile) [] sampleIDP
                        (fun _ => errorString "listen tcp: address already in use")) = 1.
Proof.
  split.
  - destruct (C3_server_closed_is_success (sampleProcess sampleEnv sampleFile) []
                (globalsOf []) sampleIDP (fun _ => ErrServerClosed) eq_refl) as (H & _).
    destruct (H okHandler eq_refl) as (Hok & _).
    destruct (Hok eq_refl) as (_ & Hcode & _). exact Hcode.
  - destruct (C3_server_closed_is_success (sampleProcess sampleEnv sampleFile) []
                (globalsOf []) sampleIDP
                (fun _ => errorString "listen tcp: address already in use") eq_refl)
      as (H & _).
    destruct (H okHandler eq_refl) as (_ & Herr).
    destruct (Herr _ eq_refl) as (_ & Hcode & _); [discriminate|]. exact Hcode.
Defined.



(** C5.  Whatever the state of the configuration file, [initConfig]
    returns: it prints one line, either that the file is used (and then the
    file was parsed) or the diagnostic that loading failed (and then no
    setting comes from the file).  A missing, unreadable or unparsable
    file gives the diagnostic; the settings then resolve from the flags, the
    environment and the defaults; the command goes on to [RunE], whose
    result alone decides the exit status. *)
Theorem C5_config_file_not_fatal (p : os.Process) (args : list (string * string))
        (g : cmd.Globals) (i : idp.IDP) (listen : http.Server tls.Config -> error) :
  cmd.ParseFlags cmd.init args = inl g ->
  let g' := cmd.initConfig g p in
  ((exists err, cmd.stdout g' = [Println ("failed to load config file: " +:+ Error err)] /\
                loaded g p = ∅) \/
   (exists m, cmd.stdout g' =
                [Println ("using config file: " +:+ viper.ConfigFileUsed (cmd.settings g'))] /\
              os.files p !! viper.ConfigFileUsed (cmd.settings g') = Some (os.Parsed m) /\
              loaded g p = m)) /\
  (cmd.cfgFile g <> "" -> fileFails p (cmd.cfgFile g) = true ->
   exists err, cmd.stdout g' = [Println ("failed to load config file: " +:+ Error err)] /\
               loaded g p = ∅) /\
  (loaded g p = ∅ ->
   forall k, strings.ToLower k = k ->
     effective g p k =
       default "" (highest [flagSource args k; environmentSource p k; defaultSource k])) /\
  cmd.RootCmd_Execute p args i listen
    = (g', fst (cmd.RunE g' p i listen), snd (cmd.RunE g' p i listen)) /\
  (cmd.code (cmd.Execute p args i listen) = 0 <-> snd (cmd.RunE g' p i listen) = None).
Proof.
  intros Hg g'. subst g'.
  destruct (ParseFlags_inv _ _ Hg) as (_ & Hs & Hout & _).
  destruct (configured_tables g Hs) as (Hc & _).
  split; [|split; [|split; [|split]]].
  - pose proof (ReadInConfig_result (configured g) p Hc) as Hr.
    unfold loaded. rewrite initConfig_unfold.
    destruct (viper.ReadInConfig (configured g) p) as [v [err|]];
      cbn [cmd.print cmd.withSettings cmd.settings cmd.stdout]; rewrite Hout.
    + left. exists err. split; [reflexivity|exact Hr].
    + right. destruct Hr as (m & Hfile & Hm). exists m. now repeat split.
  - intros Hne Hfail.
    destruct (loaded_failed args g p Hg Hne Hfail) as (Hl & err & Herr).
    exists err. split; assumption.
  - intros Hl k Hk.
    destruct (C1_core p args g k Hg Hk) as (E & _). rewrite E, Hl.
    unfold fileSource. rewrite lookup_empty. reflexivity.
  - unfold cmd.RootCmd_Execute. rewrite Hg.
    now destruct (cmd.RunE (cmd.initConfig g p) p i listen).
  - unfold cmd.Execute, cmd.RootCmd_Execute. rewrite Hg.
    destruct (cmd.RunE (cmd.initConfig g p) p i listen) as [ev [err|]]; cbn; split;
      intros H; try discriminate; reflexivity.
Qed.

Lemma C5_config_file_not_fatal_witness :
  (exists err,
     cmd.stdout (cmd.initConfig (globalsOf []) (brokenProcess None))
     = [Println ("failed to load config file: " +:+ Error err)] /\
     loaded (globalsOf []) (brokenProcess None) = ∅) /\
  (exists err,
     cmd.stdout (cmd.initConfig (globalsOf []) (brokenProcess (Some os.Unreadable)))
     = [Println ("failed to load config file: " +:+ Error err)] /\
     loaded (globalsOf []) (brokenProcess (Some os.Unreadable)) = ∅) /\
  (exists err,
     cmd.stdout (cmd.initConfig (globalsOf []) (brokenProcess (Some unparsableFile)))
     = [Println ("failed to load config file: " +:+ Error err)] /\
     loaded (globalsOf []) (brokenProcess (Some unparsableFile)) = ∅).
Proof.
  split; [|split].
  - destruct (C5_config_file_not_fatal (brokenProcess None) [] (globalsOf []) sampleIDP
                (fun _ => ErrServerClosed)) as (_ & H & _); [reflexivity|].
    apply H; [discriminate|reflexivity].
  - destruct (C5_config_file_not_fatal (brokenProcess (Some os.Unreadable)) []
                (globalsOf []) sampleIDP (fun _ => ErrServerClosed)) as (_ & H & _);
      [reflexivity|].
    apply H; [discriminate|reflexivity].
  - destruct (C5_config_file_not_fatal (brokenProcess (Some unparsableFile)) []
                (globalsOf []) sampleIDP (fun _ => ErrServerClosed)) as (_ & H & _);
      [reflexivity|].
    apply H; [discriminate|reflexivity].
Defined.

(** C6.  The environment variable [initConfig] makes the registry consult
    for a setting is named by upper-casing the setting name and replacing
    every ["-"] by ["_"]; for [tls-certificate] it is [TLS_CERTIFICATE].
    Setting names are ASCII. *)
Theorem C6_env_var_name (g : cmd.Globals) (p : os.Process) (name : string) :
  strings.isASCII name = true ->
  let v := cmd.settings (cmd.initConfig g p) in
  viper.automaticEnvApplied v = true /\
  viper.envName v (strings.ToLower name)
    = strings.mapBytes dashToUnderscore (strings.ToUpper name) /\
  viper.getEnv v p (strings.ToLower name)
    = match os.environ p !! strings.mapBytes dashToUnderscore (strings.ToUpper name) with
      | Some val => if String.eqb val "" then None else Some val
      | None => None
      end /\
  viper.envName v (strings.ToLower "tls-certificate") = "TLS_CERTIFICATE".
Proof.
  intros _ v. subst v. rewrite initConfig_settings.
  destruct (ReadInConfig_frame (configured g) p) as (Ha & He & _ & _).
  destruct (configured_env g) as (Ha' & Hr).
  assert (Hname : forall n, viper.envName (fst (viper.ReadInConfig (configured g) p))
                              (strings.ToLower n)
                            = strings.mapBytes dashToUnderscore (strings.ToUpper n)).
  { intros n. unfold viper.envName, viper.mergeWithEnvPrefix.
    now rewrite He, Hr, Replace_dash, ToUpper_ToLower. }
  split; [now rewrite Ha|]. split; [apply Hname|]. split.
  - unfold viper.getEnv, os.LookupEnv. now rewrite Hname.
  - now rewrite Hname.
Qed.

Lemma C6_env_var_name_witness :
  viper.envName (cmd.settings (cmd.initConfig (globalsOf []) (sampleProcess ∅ ∅)))
                (strings.ToLower "listen-address")
  = "LISTEN_ADDRESS".
Proof.
  destruct (C6_env_var_name (globalsOf []) (sampleProcess ∅ ∅) "listen-address")
    as (_ & H & _); [reflexivity|].
  exact H.
Defined.






(** [RunE] registers for the interrupt, on a channel of capacity one,
    before anything else, and serves afterwards. *)
Lemma RunE_registers_first (g : cmd.Globals) (p : os.Process) (i : idp.IDP)
      (listen : http.Server tls.Config -> error) :
  exists rest, fst (cmd.RunE g p i listen) = cmd.MakeChan 1 :: cmd.SignalNotify :: rest /\
               ~ In cmd.SignalNotify rest.
Proof.
  unfold cmd.RunE. destruct (idp.Handler i) as [h|err].
  - destruct (listen (cmd.newServer g p i h)); cbn; eexists; split; try reflexivity;
      cbn; intros H; repeat (destruct H as [H|H]; [discriminate|]); exact H.
  - exists []. split; [reflexivity|]. intros [].
Qed.



(** * Further properties *)

(** ** Flag parsing *)

Section ParseFailure.




End ParseFailure.



(** ** Configuration sources at the edges *)

Section SourceEdges.

(** What is loaded from the file does not depend on the environment. *)
Lemma loaded_unsetenv g p name : loaded g (unsetenv p name) = loaded g p.
Proof. reflexivity. Qed.





End SourceEdges.

(** X2.  An environment variable that is set to the empty string counts
    for nothing: every setting resolves as if the variable were unset. *)
Theorem X2_empty_variable_is_unset (p : os.Process) (args : list (string * string))
        (g : cmd.Globals) (k : string) :
  cmd.ParseFlags cmd.init args = inl g ->
  strings.ToLower k = k ->
  os.environ p !! envVarName k = Some "" ->
  effective g p k = effective g (unsetenv p (envVarName k)) k.
Proof.
  intros Hg Hk He.
  destruct (C1_core p args g k Hg Hk) as (E & _).
  destruct (C1_core (unsetenv p (envVarName k)) args g k Hg Hk) as (E' & _).
  rewrite E, E', loaded_unsetenv. unfold environmentSource, unsetenv.
  cbn [os.environ]. now rewrite He, lookup_delete_eq.
Qed.

Lemma X2_empty_variable_is_unset_witness :
  effective (globalsOf []) emptyVariableProcess "listen-address"
  = effective (globalsOf []) (unsetenv emptyVariableProcess "LISTEN_ADDRESS") "listen-address".
Proof.
  apply (X2_empty_variable_is_unset emptyVariableProcess [] (globalsOf [])
           "listen-address"); reflexivity.
Defined.







(** ** The middleware, composed *)

Section Composition.









End Composition.




(** X8.  Every serve call of the process is made on the server built from
    the resolved configuration: its address is the resolved
    [listen-address] (flag, then [LISTEN_ADDRESS], then the file, then
    [127.0.0.1:9443]), its TLS configuration is the application's, and the
    certificate and key file names passed are empty.  When the application
    handler cannot be built, nothing is served and no goroutine is
    started: only the channel and the signal registration happen. *)
Theorem X8_what_is_served (p : os.Process) (args : list (string * string))
        (g : cmd.Globals) (i : idp.IDP) (listen : http.Server tls.Config -> error) :
  cmd.ParseFlags cmd.init args = inl g ->
  (forall srv certFile keyFile,
     In (cmd.ListenAndServeTLS srv certFile keyFile)
        (cmd.events (cmd.Execute p args i listen)) ->
     exists h, idp.Handler i = inl h /\
               srv = cmd.newServer (cmd.initConfig g p) p i h /\
               certFile = "" /\ keyFile = "" /\
               http.TLSConfig srv = idp.TLSConfig i /\
               http.Addr srv =
                 default "" (highest [flagSource args "listen-address";
                                      environmentSource p "listen-address";
                                      fileSource (loaded g p) "listen-address";
                                      Some "127.0.0.1:9443"])) /\
  (forall err, idp.Handler i = inr err ->
     cmd.events (cmd.Execute p args i listen) = [cmd.MakeChan 1; cmd.SignalNotify]).
Proof.
  intros Hg.
  assert (Hev : cmd.events (cmd.Execute p args i listen)
                = fst (cmd.RunE (cmd.initConfig g p) p i listen)).
  { unfold cmd.Execute, cmd.RootCmd_Execute. rewrite Hg.
    now destruct (cmd.RunE (cmd.initConfig g p) p i listen) as [ev [err|]]. }
  rewrite Hev. unfold cmd.RunE. split.
  - intros srv c k Hin. destruct (idp.Handler i) as [h|err].
    + exists h. split; [reflexivity|].
      assert (Hsrv : cmd.ListenAndServeTLS srv c k
                     = cmd.ListenAndServeTLS (cmd.newServer (cmd.initConfig g p) p i h) "" "").
      { destruct (listen (cmd.newServer (cmd.initConfig g p) p i h)); cbn in Hin;
          repeat (destruct Hin as [Hin|Hin]; [try discriminate Hin; now symmetry|]);
          destruct Hin. }
      injection Hsrv as -> -> ->. repeat split.
      destruct (C1_core p args g "listen-address" Hg eq_refl) as (E & _).
      exact E.
    + cbn in Hin. repeat (destruct Hin as [Hin|Hin]; [discriminate Hin|]). destruct Hin.
  - intros err ->. reflexivity.
Qed.

Lemma X8_what_is_served_witness :
  cmd.events (cmd.Execute (sampleProcess sampleEnv sampleFile) []
                {| idp.Handler := inr (errorString "no signing key");
                   idp.TLSConfig := "tls" |} (fun _ => ErrServerClosed))
  = [cmd.MakeChan 1; cmd.SignalNotify].
Proof.
  destruct (X8_what_is_served (sampleProcess sampleEnv sampleFile) [] (globalsOf [])
              {| idp.Handler := inr (errorString "no signing key");
                 idp.TLSConfig := "tls" |} (fun _ => ErrServerClosed) eq_refl) as (_ & H).
  exact (H _ eq_refl).
Defined.

(** ** Environment variable names *)

Section EnvNames.

(** The variable the registry consults after [initConfig], for any key. *)
Lemma envName_initConfig g p name :
  viper.envName (cmd.settings (cmd.initConfig g p)) (strings.ToLower name)
  = envVarName name.
Proof.
  rewrite initConfig_settings.
  destruct (ReadInConfig_frame (configured g) p) as (_ & He & _ & _).
  destruct (configured_env g) as (_ & Hr).
  unfold viper.envName, viper.mergeWithEnvPrefix, envVarName.
  now rewrite He, Hr, Replace_dash, ToUpper_ToLower.
Qed.

Lemma kebabByte_envByte c :
  kebabByte c = true -> envByte (dashToUnderscore (strings.toUpperByte c)) = true.
Proof. destruct c as [[] [] [] [] [] [] [] []]; intros H; try reflexivity; discriminate H. Qed.

Lemma envVarName_bytes name :
  allBytes kebabByte name = true -> allBytes envByte (envVarName name) = true.
Proof.
  unfold envVarName, strings.ToUpper.
  induction name as [|c s IH]; cbn; [reflexivity|].
  intros H. apply andb_true_iff in H as [Hc Hs].
  now rewrite (kebabByte_envByte c Hc), (IH Hs).
Qed.

Lemma envVarName_length name : String.length (envVarName name) = String.length name.
Proof.
  unfold envVarName, strings.ToUpper.
  induction name as [|c s IH]; cbn; [reflexivity|]. now rewrite IH.
Qed.

End EnvNames.

(** X9.  For a kebab-case setting name (lower-case letters, digits and
    ["-"]) the environment variable consulted has as many characters as the
    name and consists of upper-case letters, digits and ["_"] only. *)
Theorem X9_env_var_name_shape (g : cmd.Globals) (p : os.Process) (name : string) :
  allBytes kebabByte name = true ->
  let var := viper.envName (cmd.settings (cmd.initConfig g p)) (strings.ToLower name) in
  String.length var = String.length name /\ allBytes envByte var = true.
Proof.
  intros Hk var. subst var. rewrite envName_initConfig.
  split; [apply envVarName_length|now apply envVarName_bytes].
Qed.

Lemma X9_env_var_name_shape_witness :
  allBytes envByte
    (viper.envName (cmd.settings (cmd.initConfig (globalsOf []) (sampleProcess ∅ ∅)))
                   (strings.ToLower "artifact-service-path")) = true.
Proof.
  exact (proj2 (X9_env_var_name_shape (globalsOf []) (sampleProcess ∅ ∅)
                  "artifact-service-path" eq_refl)).
Defined.

(** ** [RunE] beside its goroutine and the interrupts *)

Section Lifecycle.

Variable i : idp.IDP.

Lemma start_Inv : Inv i lifecycle.start.
Proof. unfold Inv. cbn. repeat split; auto; discriminate. Qed.

Lemma RunE_handler_error g p listen err :
  idp.Handler i = inr err -> snd (cmd.RunE g p i listen) = Some err.
Proof. intros H. unfold cmd.RunE. now rewrite H. Qed.

Lemma RunE_listen_result g p h e :
  idp.Handler i = inl h ->
  snd (cmd.RunE g p i (fun _ => e))
  = match e with ErrServerClosed => None | _ => Some e end.
Proof. intros H. unfold cmd.RunE. rewrite H. now destruct e. Qed.

Ltac inv_start s :=
  destruct s as [m w c pe n sh de dr k];
  unfold Inv, lifecycle.received; cbn;
  intros (H1 & H2 & H3 & H5 & H6 & H7 & H8 & H9 & H10) Hover Hstep;
  unfold lifecycle.over in Hover; cbn in Hover;
  apply orb_false_iff in Hover as [Hk Hover]; subst k.

Ltac inv_finish :=
  match goal with
  | H : Some _ = Some _ |- _ => injection H as <-
  end;
  unfold Inv, lifecycle.received; cbn;
  repeat match goal with
         | H : _ /\ _ |- _ => destruct H
         end;
  subst; repeat split; intros; subst; try discriminate; try congruence; try lia; eauto.

Lemma stepMain_Inv s s' :
  Inv i s -> lifecycle.over s = false ->
  lifecycle.stepMain i s = Some s' -> Inv i s'.
Proof.
  inv_start s. unfold lifecycle.stepMain, lifecycle.setMain in Hstep. cbn in Hstep.
  destruct m as [| | | | |r]; try discriminate Hstep.
  - inv_finish.
  - inv_finish.
  - destruct (idp.Handler i) as [h|err] eqn:Hh; inv_finish.
    exists ErrServerClosed. intros g p. symmetry. now apply RunE_handler_error.
  - inv_finish.
Qed.

Lemma stepListenReturns_Inv s e s' :
  Inv i s -> lifecycle.over s = false ->
  lifecycle.stepListenReturns s e = Some s' -> Inv i s'.
Proof.
  inv_start s. unfold lifecycle.stepListenReturns, lifecycle.setMain in Hstep.
  cbn in Hstep.
  destruct m as [| | | | |r]; try discriminate Hstep.
  destruct H7 as (Hw & h & Hh).
  assert (Hr : forall e0, exists e1, forall g p,
             match e0 with ErrServerClosed => None | _ => Some e0 end
             = snd (cmd.RunE g p i (fun _ => e1))).
  { intros e0. exists e0. intros g p. symmetry. now apply RunE_listen_result with h. }
  destruct e; [destruct sh as [|sh']; [discriminate Hstep|]|..]; inv_finish.
  - destruct w; try discriminate; reflexivity.
  - exact (Hr ErrServerClosed).
  - exact (Hr (ConfigFileNotFoundError name locations)).
  - exact (Hr (UnsupportedConfigError ext)).
  - exact (Hr (PathError op path err)).
  - exact (Hr (ConfigParseError err)).
  - exact (Hr (errorString msg)).
Qed.

Lemma stepWaiter_Inv s s' :
  Inv i s -> lifecycle.over s = false ->
  lifecycle.stepWaiter s = Some s' -> Inv i s'.
Proof.
  inv_start s. unfold lifecycle.stepWaiter in Hstep. cbn in Hstep.
  destruct w; try discriminate Hstep.
  - destruct pe as [|pe']; [discriminate Hstep|].
    destruct m as [| | | | |[r|]]; inv_finish.
  - destruct m as [| | | | |[r|]]; inv_finish.
Qed.

Lemma stepInterrupt_Inv s s' :
  Inv i s -> lifecycle.over s = false ->
  lifecycle.stepInterrupt s = Some s' -> Inv i s'.
Proof.
  inv_start s. unfold lifecycle.stepInterrupt in Hstep.
  cbn [lifecycle.notifying lifecycle.pending lifecycle.capacity] in Hstep.
  destruct n.
  - destruct (Nat.ltb_spec pe c); destruct m as [| | | | |[r|]], w; inv_finish.
  - inv_finish.
Qed.

Lemma step_Inv s l s' :
  lifecycle.step i s l = Some s' -> Inv i s -> Inv i s'.
Proof.
  unfold lifecycle.step. destruct (lifecycle.over s) eqn:Hover; [discriminate|].
  intros Hstep HI. destruct l.
  - eapply stepMain_Inv; eassumption.
  - eapply stepListenReturns_Inv; eassumption.
  - eapply stepWaiter_Inv; eassumption.
  - eapply stepInterrupt_Inv; eassumption.
Qed.

(** Every state of every run satisfies the invariant. *)
Lemma run_Inv steps : forall s s',
  Inv i s -> lifecycle.run i s steps = Some s' -> Inv i s'.
Proof.
  induction steps as [|l steps IH]; intros s s' HI Hrun; cbn in Hrun.
  - now injection Hrun as <-.
  - destruct (lifecycle.step i s l) as [s1|] eqn:E; [|discriminate].
    eapply IH; [|exact Hrun]. eapply step_Inv; eassumption.
Qed.

Lemma reachable_Inv steps s :
  lifecycle.run i lifecycle.start steps = Some s -> Inv i s.
Proof. apply run_Inv, start_Inv. Qed.

End Lifecycle.

(** X10.  In every run, [server.Shutdown] is called at most once, and only
    by the goroutine after it has received an interrupt from the channel;
    the channel never holds more than one signal. *)
Theorem X10_at_most_one_shutdown (i : idp.IDP) (steps : list lifecycle.Step)
        (s : lifecycle.State) :
  lifecycle.run i lifecycle.start steps = Some s ->
  lifecycle.shutdowns s <= 1 /\
  (lifecycle.shutdowns s = 1 ->
   lifecycle.waiter s = lifecycle.Finished /\ 1 <= lifecycle.delivered s) /\
  lifecycle.pending s <= 1.
Proof.
  intros Hrun. pose proof (reachable_Inv i steps s Hrun) as HI.
  destruct s as [m w c pe n sh de dr k]. unfold Inv, lifecycle.received in HI. cbn in *.
  destruct HI as (H1 & H2 & H3 & H5 & H6 & H7 & H8 & H9 & H10).
  destruct w, m; subst; repeat split; intros; try lia; try discriminate.
Qed.

Lemma X10_at_most_one_shutdown_witness :
  lifecycle.shutdowns (stateAfter sampleRun) <= 1.
Proof.
  exact (proj1 (X10_at_most_one_shutdown sampleIDP sampleRun (stateAfter sampleRun)
                  eq_refl)).
Defined.

(** X11.  No interrupt that reaches the channel is lost: each one is
    either still waiting in the channel or was received by the goroutine.
    An interrupt is dropped only when an earlier one has been delivered;
    with the channel empty, the next interrupt is always delivered. *)
Theorem X11_interrupts_are_kept (i : idp.IDP) (steps : list lifecycle.Step)
        (s : lifecycle.State) :
  lifecycle.run i lifecycle.start steps = Some s ->
  lifecycle.delivered s = lifecycle.pending s + lifecycle.received s /\
  (0 < lifecycle.dropped s -> 0 < lifecycle.delivered s) /\
  (lifecycle.notifying s = true -> lifecycle.over s = false ->
   lifecycle.pending s = 0 ->
   exists s', lifecycle.step i s lifecycle.Interrupt = Some s' /\
              lifecycle.pending s' = 1 /\
              lifecycle.delivered s' = S (lifecycle.delivered s) /\
              lifecycle.dropped s' = lifecycle.dropped s).
Proof.
  intros Hrun. pose proof (reachable_Inv i steps s Hrun) as HI.
  destruct s as [m w c pe n sh de dr k]. unfold Inv, lifecycle.received in HI.
  unfold lifecycle.received. cbn in *.
  destruct HI as (H1 & H2 & H3 & H5 & H6 & H7 & H8 & H9 & H10).
  split; [exact H9|]. split; [lia|].
  intros -> Hover ->. unfold lifecycle.step, lifecycle.stepInterrupt.
  rewrite Hover. cbn.
  destruct m; try discriminate H3; subst c; cbn; eauto.
Qed.

Lemma X11_interrupts_are_kept_witness :
  lifecycle.delivered (stateAfter sampleRun) = 1 /\
  lifecycle.dropped (stateAfter sampleRun) = 1.
Proof.
  destruct (X11_interrupts_are_kept sampleIDP sampleRun (stateAfter sampleRun) eq_refl)
    as (H & _).
  split; [exact H|reflexivity].
Defined.

(** X12.  [RunE] asks for the interrupt before it builds the handler,
    starts the goroutine or serves.  So an interrupt ends the process
    only if it arrives before [signal.Notify] has run; after that an
    interrupt changes nothing but the channel. *)
Theorem X12_registration_comes_first (i : idp.IDP) (steps : list lifecycle.Step)
        (s : lifecycle.State) :
  lifecycle.run i lifecycle.start steps = Some s ->
  (lifecycle.killed s = true ->
   lifecycle.main s = lifecycle.AtMakeChan \/ lifecycle.main s = lifecycle.AtNotify) /\
  (lifecycle.main s <> lifecycle.AtMakeChan -> lifecycle.main s <> lifecycle.AtNotify ->
   lifecycle.notifying s = true /\ lifecycle.capacity s = 1) /\
  (lifecycle.notifying s = true ->
   forall s', lifecycle.step i s lifecycle.Interrupt = Some s' ->
     lifecycle.killed s' = false /\ lifecycle.main s' = lifecycle.main s /\
     lifecycle.waiter s' = lifecycle.waiter s /\
     lifecycle.shutdowns s' = lifecycle.shutdowns s).
Proof.
  intros Hrun. pose proof (reachable_Inv i steps s Hrun) as HI.
  destruct s as [m w c pe n sh de dr k]. unfold Inv in HI. cbn in *.
  destruct HI as (H1 & H2 & H3 & H5 & H6 & H7 & H8 & H9 & H10).
  split; [|split].
  - intros ->. specialize (H6 eq_refl). subst n. destruct m; auto; discriminate.
  - intros Hm1 Hm2. destruct m; try contradiction; auto.
  - intros -> s'. unfold lifecycle.step, lifecycle.over, lifecycle.stepInterrupt.
    cbn [lifecycle.killed lifecycle.main lifecycle.notifying lifecycle.pending
         lifecycle.capacity].
    destruct k; [discriminate (H6 eq_refl)|].
    destruct m; destruct (Nat.ltb pe c); cbn [orb]; intros H; try discriminate H;
      injection H as <-; cbn; auto.
Qed.

Lemma X12_registration_comes_first_witness :
  lifecycle.killed (stateAfter [lifecycle.Main; lifecycle.Interrupt]) = true /\
  lifecycle.killed (stateAfter [lifecycle.Main; lifecycle.Main; lifecycle.Interrupt])
  = false.
Proof.
  split; [reflexivity|].
  destruct (X12_registration_comes_first sampleIDP [lifecycle.Main; lifecycle.Main]
              (stateAfter [lifecycle.Main; lifecycle.Main]) eq_refl) as (_ & _ & H).
  exact (proj1 (H eq_refl _ eq_refl)).
Defined.



(** X14.  Once an interrupt has been delivered, a serving process can
    always wind down: the goroutine receives the signal and calls
    [server.Shutdown], the serve call returns [http.ErrServerClosed], and
    [RunE] returns nil. *)
Theorem X14_an_interrupt_can_always_stop_the_server (i : idp.IDP)
        (steps : list lifecycle.Step) (s : lifecycle.State) :
  lifecycle.run i lifecycle.start steps = Some s ->
  lifecycle.main s = lifecycle.AtListen ->
  1 <= lifecycle.delivered s ->
  exists s', lifecycle.run i s (lifecycle.windDown s) = Some s' /\
             lifecycle.main s' = lifecycle.Returned None /\
             lifecycle.shutdowns s' = 1.
Proof.
  intros Hrun Hm Hd. pose proof (reachable_Inv i steps s Hrun) as HI.
  destruct s as [m w c pe n sh de dr k]. unfold Inv, lifecycle.received in HI.
  cbn in *. subst m.
  destruct HI as (H1 & H2 & H3 & H5 & H6 & (Hw & _) & H8 & H9 & H10).
  destruct k; [now specialize (H6 eq_refl); subst n|].
  subst n c sh.
  destruct w; try contradiction; unfold lifecycle.windDown; cbn.
  - destruct pe as [|pe']; [lia|]. cbn. eauto.
  - eauto.
  - eauto.
Qed.

Lemma X14_an_interrupt_can_always_stop_the_server_witness :
  exists s',
    lifecycle.run sampleIDP
      (stateAfter [lifecycle.Main; lifecycle.Main; lifecycle.Interrupt;
                   lifecycle.Main; lifecycle.Main])
      [lifecycle.Waiter; lifecycle.Waiter; lifecycle.ListenReturns ErrServerClosed]
    = Some s' /\
    lifecycle.main s' = lifecycle.Returned None /\ lifecycle.shutdowns s' = 1.
Proof.
  refine (X14_an_interrupt_can_always_stop_the_server sampleIDP
            [lifecycle.Main; lifecycle.Main; lifecycle.Interrupt;
             lifecycle.Main; lifecycle.Main]
            (stateAfter [lifecycle.Main; lifecycle.Main; lifecycle.Interrupt;
                         lifecycle.Main; lifecycle.Main]) eq_refl eq_refl _).
  cbn. lia.
Defined.
